(** * Basic-Auth access check over an in-memory user list

    A shallow embedding of [main.py]: the domain record [User], the
    application service [AccessService.check_auth], the repository
    [UserRepository.with_username], the two route handlers and the
    startup list of [DBProvider.database].

    Python [str] values are modelled by [string], [==] / [!=] on them by
    decidable equality, a [dict] by [gmap], and the exceptions raised by the
    program by the inductive type [Exc].  The list built by
    [DBProvider.database] is the one object shared between requests; it is
    the state threaded through every operation, so that "does not touch the
    store" is a statement about the final state. *)

From stdpp Require Import base option list strings gmap.

Open Scope Z_scope.
Open Scope string_scope.
Open Scope list_scope.

(** ** Domain layer *)

Record User := mkUser { username : string; password : string }.

(** A dataclass compares field by field. *)
#[global] Instance User_eq_dec : EqDecision User.
Proof. solve_decision. Defined.

(** ** Application layer *)

(** The exceptions the program raises.  [HTTPException] is the web
    framework's class; its last argument is the [__cause__] set by
    [raise ... from exc]. *)
Inductive Exc :=
| UserNotFoundError
| UserNotAuthenticatedError
| HTTPException (status_code : Z) (detail : string)
                (headers : gmap string string) (cause : Exc).

(** The shared list of users. *)
Definition Store := list User.

(** Computations that read or write the shared list and either return a
    value or raise. *)
Definition Eff (A : Type) : Type := Store → (Exc + A) * Store.

#[global] Instance Eff_ret : MRet Eff := λ A (a : A) s, (inr a, s).

#[global] Instance Eff_bind : MBind Eff := λ A B (k : A → Eff B) (m : Eff A) s,
  match m s with
  | (inr a, s') => k a s'
  | (inl e, s') => (inl e, s')
  end.

Definition raise {A} (e : Exc) : Eff A := λ s, (inl e, s).

(** Reading the attribute that holds the shared list. *)
Definition read_database : Eff (list User) := λ s, (inr s, s).

(** [try: body except (classes) as exc: handler exc]: an exception that
    is an instance of one of the listed classes is handed to the handler,
    any other one propagates. *)
Definition try_except {A} (body : Eff A) (catches : Exc → bool)
    (handler : Exc → Eff A) : Eff A := λ s,
  match body s with
  | (inl exc, s') => if catches exc then handler exc s' else (inl exc, s')
  | (inr a, s') => (inr a, s')
  end.

Module Credentials.
(** [HTTPBasicCredentialsProtocol]: what the security dependency hands to
    the service for one request. *)
Record t := mk { username : string; password : string }.
End Credentials.

Abbreviation HTTPBasicCredentialsProtocol := Credentials.t.

(** [UserRepositoryProtocol]: the single abstract method. *)
Class UserRepositoryProtocol (R : Type) :=
  with_username : R → string → Eff (option User).

Record AccessService (R : Type) := mkAccessService {
  _credentials : HTTPBasicCredentialsProtocol;
  _user_repository : R
}.
Arguments mkAccessService {R} _ _.
Arguments _credentials {R} _.
Arguments _user_repository {R} _.

(** [AccessService.check_auth].  The declared result type is
    [User | None]; the value returned is the variable [user] itself. *)
Definition check_auth {R} `{UserRepositoryProtocol R}
    (self : AccessService R) : Eff (option User) :=
  let data := _credentials self in
  let repo := _user_repository self in
  user ← with_username repo (Credentials.username data);
  match user with
  | None => raise UserNotFoundError
  | Some u =>
      if decide (password u ≠ Credentials.password data)
      then raise UserNotAuthenticatedError
      else mret user
  end.

(** ** Presentation layer *)

(** What a route function returns. *)
Inductive Returned :=
| FileResponse (path : string)
| Str (s : string).

(** Modelled from the spec: [status.HTTP_401_UNAUTHORIZED] is a constant of
    the web framework, which is not part of the repository; the spec gives
    the status of the failure response as 401. *)
Definition HTTP_401_UNAUTHORIZED : Z := 401.

Definition index : Eff Returned := mret (FileResponse "public/index.html").

(** The classes listed in the [except] clause of the handler. *)
Definition is_access_error (exc : Exc) : bool :=
  match exc with
  | UserNotFoundError | UserNotAuthenticatedError => true
  | HTTPException _ _ _ _ => false
  end.

Definition get_protected_resource {R} `{UserRepositoryProtocol R}
    (access_service : AccessService R) : Eff Returned :=
  try_except
    (_ ← check_auth access_service; mret (Str "You got my secret, welcome!"))
    is_access_error
    (λ exc, raise (HTTPException HTTP_401_UNAUTHORIZED
                     "User not authenticated"
                     {[ "WWW-Authenticate" := "Basic" ]}
                     exc)).

(** ** Infrastructure layer *)

(** [UserRepository]: its only attribute, [_database], refers to the
    shared list, which is the state of [Eff]. *)
Inductive UserRepository := mkUserRepository.

#[global] Instance UserRepository_with_username :
    UserRepositoryProtocol UserRepository := λ self username0,
  _database ← read_database;
  let user := head (filter (λ u, username u = username0) _database) in
  mret user.

Module DBProvider.
Definition database : list User := [
  mkUser "user1" "pass1";
  mkUser "user2" "pass2";
  mkUser "user3" "pass3";
  mkUser "user4" "pass4";
  mkUser "user5" "pass5"
].
End DBProvider.

(** ** Entry point: the application as a request loop *)

(** The two routes registered on the router.  A request to the protected
    route arrives at the handler with the credentials parsed from its
    Basic-Auth header. *)
Inductive Request :=
| GET_index
| GET_protected_resource (credentials : HTTPBasicCredentialsProtocol).

(** The objects of request scope are built anew for each request: a
    repository over the shared list and a service over that repository and
    the request's credentials. *)
Definition access_service (credentials : HTTPBasicCredentialsProtocol)
    : AccessService UserRepository :=
  let user_repository := mkUserRepository in
  mkAccessService credentials user_repository.

Definition handle (req : Request) : Eff Returned :=
  match req with
  | GET_index => index
  | GET_protected_resource credentials =>
      get_protected_resource (access_service credentials)
  end.

Inductive Body :=
| file_contents (path : string)
| content (s : string)
| detail_body (detail : string).

Record Response := mkResponse {
  resp_status : Z;
  resp_headers : gmap string string;
  resp_body : Body
}.

(** Modelled from the spec: the web framework, which is not part of the
    repository, turns the outcome of a route function into the response: a
    returned value answers with status 200, a raised [HTTPException] with
    its own status code, headers and detail.  Any other exception is left
    to the framework's generic error handling, outside this model. *)
Definition respond (outcome : Exc + Returned) : option Response :=
  match outcome with
  | inr (FileResponse path) => Some (mkResponse 200 ∅ (file_contents path))
  | inr (Str s) => Some (mkResponse 200 ∅ (content s))
  | inl (HTTPException status_code detail headers _) =>
      Some (mkResponse status_code headers (detail_body detail))
  | inl _ => None
  end.

(** The response to one request, and the store it leaves behind. *)
Definition serve_one (req : Request) (s : Store) : option Response * Store :=
  let '(outcome, s') := handle req s in (respond outcome, s').

(** The process serving a sequence of requests, one after the other, on
    the store it holds. *)
Fixpoint serve (reqs : list Request) (s : Store)
    : list (option Response) * Store :=
  match reqs with
  | [] => ([], s)
  | req :: reqs' =>
      let '(resp, s') := serve_one req s in
      let '(resps, s'') := serve reqs' s' in
      (resp :: resps, s'')
  end.

(** The store the application built by [create_app] starts with: its
    container calls [DBProvider.database] once, at application scope, and
    hands that one list to the repository of every request. *)
Definition startup_store : Store := DBProvider.database.

(** ** Vocabulary of the specification *)

(** [r] is the first record of [db] whose username is [name]: it sits at
    some position of the list, and no record before it has that username. *)
Definition first_with_username (db : list User) (name : string) (r : User)
    : Prop :=
  ∃ pre post, db = pre ++ r :: post ∧ username r = name
              ∧ Forall (λ x, username x ≠ name) pre.

(** No record of [db] has the username [name]. *)
Definition username_absent (db : list User) (name : string) : Prop :=
  Forall (λ x, username x ≠ name) db.

(** The credential pairs listed for the startup store. *)
Definition accepted_pairs : list (string * string) := [
  ("user1", "pass1"); ("user2", "pass2"); ("user3", "pass3");
  ("user4", "pass4"); ("user5", "pass5")
].

(** The two responses of the protected route. *)
Definition response_401 : Response :=
  mkResponse 401 {[ "WWW-Authenticate" := "Basic" ]}
             (detail_body "User not authenticated").

Definition response_200 : Response :=
  mkResponse 200 ∅ (content "You got my secret, welcome!").

(** * Properties *)

(** ** The repository: [with_username] *)

Section Repository.
Implicit Types (db : list User) (name : string) (r : User).

Lemma with_username_run db name :
  with_username mkUserRepository name db
  = (inr (head (filter (λ u, username u = name) db)), db).
Proof. reflexivity. Qed.

(** The scan, one record at a time. *)
Lemma head_filter_cons db name r :
  head (filter (λ u, username u = name) (r :: db))
  = if decide (username r = name) then Some r
    else head (filter (λ u, username u = name) db).
Proof. rewrite filter_cons. by case_decide. Qed.

Lemma head_filter_first db name r :
  head (filter (λ u, username u = name) db) = Some r
  ↔ first_with_username db name r.
Proof.
  split.
  - induction db as [|x db IH]; [done|].
    rewrite head_filter_cons. case_decide as Hx.
    + intros [= ->]. by exists [], db.
    + intros (pre & post & -> & Hr & Hpre)%IH.
      exists (x :: pre), post. split_and!; [done..|by constructor].
  - intros (pre & post & -> & Hr & Hpre).
    induction Hpre as [|x pre Hx _ IH]; simpl.
    + by rewrite head_filter_cons, decide_True.
    + by rewrite head_filter_cons, decide_False.
Qed.

Lemma head_filter_absent db name :
  head (filter (λ u, username u = name) db) = None ↔ username_absent db name.
Proof.
  unfold username_absent. induction db as [|x db IH]; [by split|].
  rewrite head_filter_cons, Forall_cons. case_decide; [|tauto].
  split; [done|]. by intros [? _].
Qed.

Lemma with_username_first db name r :
  first_with_username db name r →
  with_username mkUserRepository name db = (inr (Some r), db).
Proof. intros Hr%head_filter_first. by rewrite with_username_run, Hr. Qed.

Lemma with_username_absent db name :
  username_absent db name →
  with_username mkUserRepository name db = (inr None, db).
Proof. intros Hr%head_filter_absent. by rewrite with_username_run, Hr. Qed.

(** At most one record is the first one with a given username. *)
Lemma first_with_username_unique db name r1 r2 :
  first_with_username db name r1 → first_with_username db name r2 → r1 = r2.
Proof. intros H1%head_filter_first H2%head_filter_first. congruence. Qed.

(** In a list whose usernames are pairwise distinct, every record is the
    first one with its username. *)
Lemma NoDup_first_with_username db r :
  NoDup (username <$> db) → r ∈ db → first_with_username db (username r) r.
Proof.
  intros Hnd (pre & post & ->)%list_elem_of_split.
  exists pre, post. split_and!; [done..|].
  rewrite fmap_app, fmap_cons in Hnd.
  apply NoDup_app in Hnd as (_ & Hdisj & _).
  apply Forall_forall. intros x Hx Heq.
  apply (Hdisj (username x)); [by apply list_elem_of_fmap_2|].
  rewrite Heq. left.
Qed.

(** C4. For every input string, [with_username] either returns the first
    record of the store list whose username equals the input (equality of
    strings, so case-sensitive), or returns [None] when no record has that
    username; it never raises, and it leaves the store as it found it. *)
Theorem with_username_first_or_None db name :
  (∃ r, first_with_username db name r
        ∧ with_username mkUserRepository name db = (inr (Some r), db))
  ∨ (username_absent db name
     ∧ with_username mkUserRepository name db = (inr None, db)).
Proof.
  rewrite with_username_run.
  destruct (head (filter _ db)) as [r|] eqn:Hhead.
  - left. exists r. by apply head_filter_first in Hhead.
  - right. by apply head_filter_absent in Hhead.
Qed.

(** The empty string, an unknown name and a name in another letter case
    all find nothing in the startup store. *)
Example with_username_empty_string :
  with_username mkUserRepository "" startup_store = (inr None, startup_store).
Proof. reflexivity. Qed.

Example with_username_unknown :
  with_username mkUserRepository "user6" startup_store = (inr None, startup_store).
Proof. reflexivity. Qed.

Example with_username_other_case :
  with_username mkUserRepository "User1" startup_store = (inr None, startup_store).
Proof. reflexivity. Qed.

(** With two records under one username, the lookup sees the first. *)
Example with_username_duplicate :
  with_username mkUserRepository "a" [mkUser "a" "1"; mkUser "a" "2"]
  = (inr (Some (mkUser "a" "1")), [mkUser "a" "1"; mkUser "a" "2"]).
Proof. reflexivity. Qed.

End Repository.

(** ** The access check: [check_auth] *)

Section AccessCheck.
Implicit Types (db : list User) (r : User).
Implicit Types (credentials : HTTPBasicCredentialsProtocol).

(** What a run of [check_auth] over the list-backed repository does. *)
Lemma check_auth_run db credentials :
  check_auth (access_service credentials) db
  = match head (filter (λ u, username u = Credentials.username credentials)
                       db) with
    | None => (inl UserNotFoundError, db)
    | Some u =>
        if decide (password u = Credentials.password credentials)
        then (inr (Some u), db)
        else (inl UserNotAuthenticatedError, db)
    end.
Proof.
  unfold check_auth, access_service; simpl.
  unfold mbind, Eff_bind. rewrite with_username_run.
  destruct (head _) as [u|]; [|done].
  destruct (decide (password u = _)) as [Heq|Hne].
  - by rewrite decide_False by (by intros []).
  - by rewrite decide_True.
Qed.

(** A list that holds two records under one username, which the user
    store never does: the list contains the record [("user1", "other")],
    the credentials are exactly that pair, and the check raises
    [UserNotAuthenticatedError], because the lookup stops at the earlier
    record [("user1", "pass1")]. *)
Lemma check_auth_shadowed_record :
  let db := [mkUser "user1" "pass1"; mkUser "user1" "other"] in
  let credentials := Credentials.mk "user1" "other" in
  (∃ r, r ∈ db ∧ username r = Credentials.username credentials
        ∧ password r = Credentials.password credentials)
  ∧ check_auth (access_service credentials) db
    = (inl UserNotAuthenticatedError, db).
Proof.
  split; [|reflexivity].
  exists (mkUser "user1" "other"). split_and!; [|done..].
  right; left.
Qed.

(** On any list, also one that repeats a username: when the first
    record whose username equals [credentials.username] has a password
    equal to [credentials.password], [check_auth] returns exactly that
    record and raises no error; the list is left as it was. *)
Theorem check_auth_returns_first_match db credentials r :
  first_with_username db (Credentials.username credentials) r →
  password r = Credentials.password credentials →
  check_auth (access_service credentials) db = (inr (Some r), db).
Proof.
  intros Hr%head_filter_first Hpw.
  by rewrite check_auth_run, Hr, decide_True.
Qed.

Lemma check_auth_returns_first_match_witness :
  check_auth (access_service (Credentials.mk "user2" "pass2")) startup_store
  = (inr (Some (mkUser "user2" "pass2")), startup_store).
Proof.
  apply (check_auth_returns_first_match
           startup_store (Credentials.mk "user2" "pass2") (mkUser "user2" "pass2")).
  - exists [mkUser "user1" "pass1"],
      [mkUser "user3" "pass3"; mkUser "user4" "pass4"; mkUser "user5" "pass5"].
    split; [reflexivity|]. split; [reflexivity|].
    constructor; [discriminate|constructor].
  - reflexivity.
Defined.

(** In a store whose usernames are pairwise distinct, such as the startup
    store, holding the exact pair is enough. *)
Lemma check_auth_unique_usernames db credentials r :
  NoDup (username <$> db) → r ∈ db →
  username r = Credentials.username credentials →
  password r = Credentials.password credentials →
  check_auth (access_service credentials) db = (inr (Some r), db).
Proof.
  intros Hnd Hin Hname Hpw.
  apply NoDup_first_with_username, head_filter_first in Hin; [|done].
  rewrite Hname in Hin. by rewrite check_auth_run, Hin, decide_True.
Qed.

(** C1. The user store holds each username once, as the startup list
    does.  For every credentials pair such that the store contains a
    record whose username equals [credentials.username] and whose password
    equals [credentials.password], [check_auth] returns exactly that
    record, which is the first store record with that username, and raises
    no error.  This holds of every list with pairwise distinct usernames,
    and of the startup store in particular. *)
Theorem check_auth_exact_pair :
  (∀ db credentials r,
     NoDup (username <$> db) → r ∈ db →
     username r = Credentials.username credentials →
     password r = Credentials.password credentials →
     check_auth (access_service credentials) db = (inr (Some r), db)
     ∧ first_with_username db (Credentials.username credentials) r)
  ∧ (∀ credentials r,
       r ∈ startup_store →
       username r = Credentials.username credentials →
       password r = Credentials.password credentials →
       check_auth (access_service credentials) startup_store
       = (inr (Some r), startup_store)
       ∧ first_with_username startup_store
                             (Credentials.username credentials) r).
Proof.
  assert (∀ db credentials r,
            NoDup (username <$> db) → r ∈ db →
            username r = Credentials.username credentials →
            password r = Credentials.password credentials →
            check_auth (access_service credentials) db = (inr (Some r), db)
            ∧ first_with_username db (Credentials.username credentials) r)
    as Hdistinct.
  { intros db credentials r Hnd Hin Hname Hpw. split.
    - by apply check_auth_unique_usernames.
    - rewrite <-Hname. by apply NoDup_first_with_username. }
  split; [exact Hdistinct|].
  intros credentials r Hin Hname Hpw.
  apply Hdistinct; [compute_done|done..].
Qed.

Lemma check_auth_exact_pair_witness :
  check_auth (access_service (Credentials.mk "user2" "pass2")) startup_store
  = (inr (Some (mkUser "user2" "pass2")), startup_store)
  ∧ first_with_username startup_store "user2" (mkUser "user2" "pass2").
Proof.
  apply (proj2 check_auth_exact_pair
           (Credentials.mk "user2" "pass2") (mkUser "user2" "pass2")).
  - right; left.
  - reflexivity.
  - reflexivity.
Defined.

(** C2. For every credentials whose username is the username of no
    record of the store, [check_auth] raises [UserNotFoundError] and
    returns no user. *)
Theorem check_auth_unknown_username db credentials :
  username_absent db (Credentials.username credentials) →
  check_auth (access_service credentials) db = (inl UserNotFoundError, db).
Proof. intros Hr%head_filter_absent. by rewrite check_auth_run, Hr. Qed.

Lemma check_auth_unknown_username_witness :
  check_auth (access_service (Credentials.mk "user6" "pass1")) startup_store
  = (inl UserNotFoundError, startup_store).
Proof.
  apply (check_auth_unknown_username startup_store (Credentials.mk "user6" "pass1")).
  repeat constructor; discriminate.
Defined.

(** C3. For every credentials whose username is found in the store but
    whose password is not equal, as a string, to the password stored in
    the record found, [check_auth] raises [UserNotAuthenticatedError]. *)
Theorem check_auth_wrong_password db credentials r :
  first_with_username db (Credentials.username credentials) r →
  password r ≠ Credentials.password credentials →
  check_auth (access_service credentials) db
  = (inl UserNotAuthenticatedError, db).
Proof.
  intros Hr%head_filter_first Hpw.
  by rewrite check_auth_run, Hr, decide_False.
Qed.

Lemma check_auth_wrong_password_witness :
  check_auth (access_service (Credentials.mk "user1" "Pass1")) startup_store
  = (inl UserNotAuthenticatedError, startup_store).
Proof.
  apply (check_auth_wrong_password
           startup_store (Credentials.mk "user1" "Pass1") (mkUser "user1" "pass1")).
  - exists [],
      [mkUser "user2" "pass2"; mkUser "user3" "pass3"; mkUser "user4" "pass4";
       mkUser "user5" "pass5"].
    split; [reflexivity|]. split; [reflexivity|constructor].
  - discriminate.
Defined.

(** Passwords that differ from the stored one only in letter case or only
    in white space are wrong passwords. *)
Example check_auth_upper_case :
  check_auth (access_service (Credentials.mk "user1" "PASS1")) startup_store
  = (inl UserNotAuthenticatedError, startup_store).
Proof. reflexivity. Qed.

Example check_auth_trailing_space :
  check_auth (access_service (Credentials.mk "user1" "pass1 ")) startup_store
  = (inl UserNotAuthenticatedError, startup_store).
Proof. reflexivity. Qed.

Example check_auth_leading_space :
  check_auth (access_service (Credentials.mk "user1" " pass1")) startup_store
  = (inl UserNotAuthenticatedError, startup_store).
Proof. reflexivity. Qed.

Example check_auth_empty_password :
  check_auth (access_service (Credentials.mk "user1" "")) startup_store
  = (inl UserNotAuthenticatedError, startup_store).
Proof. reflexivity. Qed.

(** C9. For every credentials and every store, a run of [check_auth]
    that returns does not return [None]: it returns a user whose username
    and password are those of the credentials. *)
Theorem check_auth_never_returns_None db db' credentials result :
  check_auth (access_service credentials) db = (inr result, db') →
  ∃ user, result = Some user
          ∧ username user = Credentials.username credentials
          ∧ password user = Credentials.password credentials.
Proof.
  rewrite check_auth_run.
  destruct (head _) as [u|] eqn:Hhead; [|discriminate].
  apply head_filter_first in Hhead as (_ & _ & _ & Hname & _).
  case_decide; [|discriminate]. intros [= <- _]. by exists u.
Qed.

Lemma check_auth_never_returns_None_witness :
  ∃ user, Some (mkUser "user3" "pass3") = Some user
          ∧ username user = "user3" ∧ password user = "pass3".
Proof.
  apply (check_auth_never_returns_None
           startup_store startup_store (Credentials.mk "user3" "pass3")).
  reflexivity.
Defined.

(** The same holds of the result over any repository that implements
    the protocol, as far as the password goes: the username is the
    repository's business. *)
Lemma check_auth_any_repository {R} `{UserRepositoryProtocol R}
    (self : AccessService R) (s s' : Store) result :
  check_auth self s = (inr result, s') →
  ∃ user, result = Some user
          ∧ password user = Credentials.password (_credentials self).
Proof.
  unfold check_auth, mbind, Eff_bind.
  destruct (with_username _ _ s) as [[exc|[u|]] s1]; [discriminate| |discriminate].
  case_decide as Hpw; [discriminate|].
  intros [= <- _]. exists u. split; [done|].
  by destruct (decide (password u = Credentials.password (_credentials self))).
Qed.

End AccessCheck.

(** ** The protected route *)

Section ProtectedResource.
Implicit Types (db : list User) (credentials : HTTPBasicCredentialsProtocol).

(** The handler, over any repository: what it does with each outcome of
    the access check. *)
Lemma get_protected_resource_run {R} `{UserRepositoryProtocol R}
    (access_service : AccessService R) (s : Store) :
  get_protected_resource access_service s
  = match check_auth access_service s with
    | (inr _, s') => (inr (Str "You got my secret, welcome!"), s')
    | (inl exc, s') =>
        if is_access_error exc
        then (inl (HTTPException HTTP_401_UNAUTHORIZED "User not authenticated"
                     {[ "WWW-Authenticate" := "Basic" ]} exc), s')
        else (inl exc, s')
    end.
Proof.
  unfold get_protected_resource, try_except, mbind, Eff_bind.
  by destruct (check_auth access_service s) as [[exc|user] s'].
Qed.

Lemma serve_one_protected_failure db credentials exc :
  fst (check_auth (access_service credentials) db) = inl exc →
  exc = UserNotFoundError ∨ exc = UserNotAuthenticatedError →
  serve_one (GET_protected_resource credentials) db = (Some response_401, db).
Proof.
  unfold serve_one, handle. rewrite get_protected_resource_run.
  rewrite check_auth_run. destruct (head _) as [u|]; [case_decide|]; simpl.
  - discriminate.
  - by intros [= <-] _.
  - by intros [= <-] _.
Qed.

Lemma serve_one_protected_success db credentials user :
  fst (check_auth (access_service credentials) db) = inr user →
  serve_one (GET_protected_resource credentials) db = (Some response_200, db).
Proof.
  unfold serve_one, handle. rewrite get_protected_resource_run.
  rewrite check_auth_run. destruct (head _) as [u|]; [case_decide|]; simpl;
    by (discriminate || reflexivity).
Qed.

(** C5. For every request to the protected route: if the access check
    raises [UserNotFoundError] or [UserNotAuthenticatedError], the response
    has status 401, the header [WWW-Authenticate: Basic] and the detail
    ["User not authenticated"]; if the access check returns, the response
    has status 200 and the body ["You got my secret, welcome!"]. *)
Theorem protected_resource_response db credentials :
  (∀ exc, fst (check_auth (access_service credentials) db) = inl exc →
          exc = UserNotFoundError ∨ exc = UserNotAuthenticatedError →
          serve_one (GET_protected_resource credentials) db
          = (Some (mkResponse 401 {[ "WWW-Authenticate" := "Basic" ]}
                              (detail_body "User not authenticated")), db))
  ∧ (∀ user, fst (check_auth (access_service credentials) db) = inr user →
             serve_one (GET_protected_resource credentials) db
             = (Some (mkResponse 200 ∅
                        (content "You got my secret, welcome!")), db)).
Proof.
  split.
  - apply serve_one_protected_failure.
  - apply serve_one_protected_success.
Qed.

Lemma protected_resource_response_witness :
  serve_one (GET_protected_resource (Credentials.mk "user1" "nope")) startup_store
  = (Some (mkResponse 401 {[ "WWW-Authenticate" := "Basic" ]}
                      (detail_body "User not authenticated")), startup_store)
  ∧ serve_one (GET_protected_resource (Credentials.mk "user4" "pass4"))
              startup_store
    = (Some (mkResponse 200 ∅ (content "You got my secret, welcome!")),
       startup_store).
Proof.
  split.
  - apply (proj1 (protected_resource_response
                    startup_store (Credentials.mk "user1" "nope"))
                 UserNotAuthenticatedError).
    + reflexivity.
    + right. reflexivity.
  - apply (proj2 (protected_resource_response
                    startup_store (Credentials.mk "user4" "pass4"))
                 (Some (mkUser "user4" "pass4"))).
    reflexivity.
Defined.

(** C6. Two requests to the protected route, one failing the access check
    with [UserNotFoundError] and the other with
    [UserNotAuthenticatedError], receive the same response: status code,
    headers and detail are identical. *)
Theorem failure_kinds_indistinguishable db1 db2 credentials1 credentials2 :
  fst (check_auth (access_service credentials1) db1) = inl UserNotFoundError →
  fst (check_auth (access_service credentials2) db2)
  = inl UserNotAuthenticatedError →
  ∃ resp,
    fst (serve_one (GET_protected_resource credentials1) db1) = Some resp
    ∧ fst (serve_one (GET_protected_resource credentials2) db2) = Some resp
    ∧ resp_status resp = 401
    ∧ resp_headers resp !! "WWW-Authenticate" = Some "Basic"
    ∧ resp_body resp = detail_body "User not authenticated".
Proof.
  intros H1 H2. exists response_401.
  rewrite (serve_one_protected_failure _ _ _ H1) by auto.
  rewrite (serve_one_protected_failure _ _ _ H2) by auto.
  by split_and!.
Qed.

Lemma failure_kinds_indistinguishable_witness :
  ∃ resp,
    fst (serve_one (GET_protected_resource (Credentials.mk "nobody" "pass1"))
                   startup_store) = Some resp
    ∧ fst (serve_one (GET_protected_resource (Credentials.mk "user1" "wrongpass"))
                     startup_store) = Some resp
    ∧ resp_status resp = 401
    ∧ resp_headers resp !! "WWW-Authenticate" = Some "Basic"
    ∧ resp_body resp = detail_body "User not authenticated".
Proof.
  apply (failure_kinds_indistinguishable
           startup_store startup_store
           (Credentials.mk "nobody" "pass1") (Credentials.mk "user1" "wrongpass"));
    reflexivity.
Defined.

(** Inside the program the two failures stay apart: the exceptions the
    handler raises carry different causes. *)
Example failure_kinds_differ_inside :
  fst (get_protected_resource
         (access_service (Credentials.mk "nobody" "pass1")) startup_store)
  ≠ fst (get_protected_resource
           (access_service (Credentials.mk "user1" "wrongpass")) startup_store).
Proof. vm_compute. discriminate. Qed.

(** C7. A request to the protected route with the credentials
    [user1] / [pass1] succeeds: the startup store holds the record
    [(user1, pass1)], the access check returns it, and the response has
    status 200 and the body ["You got my secret, welcome!"]. *)
Theorem user1_pass1_gets_the_secret :
  mkUser "user1" "pass1" ∈ startup_store
  ∧ check_auth (access_service (Credentials.mk "user1" "pass1")) startup_store
    = (inr (Some (mkUser "user1" "pass1")), startup_store)
  ∧ serve_one (GET_protected_resource (Credentials.mk "user1" "pass1"))
              startup_store
    = (Some (mkResponse 200 ∅ (content "You got my secret, welcome!")),
       startup_store).
Proof. split_and!; [left|reflexivity..]. Qed.

End ProtectedResource.

(** ** The store over the life of the process *)

Section StoreLifetime.
Implicit Types (db : list User) (credentials : HTTPBasicCredentialsProtocol).

Lemma with_username_store db name :
  snd (with_username mkUserRepository name db) = db.
Proof. reflexivity. Qed.

Lemma check_auth_store db credentials :
  snd (check_auth (access_service credentials) db) = db.
Proof.
  rewrite check_auth_run.
  destruct (head _) as [u|]; [case_decide|]; reflexivity.
Qed.

Lemma handle_store db req : snd (handle req db) = db.
Proof.
  destruct req as [|credentials]; [reflexivity|].
  unfold handle. rewrite get_protected_resource_run.
  pose proof (check_auth_store db credentials) as Hs.
  destruct (check_auth _ db) as [[exc|user] s']; simpl in *; [|done].
  by destruct (is_access_error exc).
Qed.

Lemma serve_one_store db req : snd (serve_one req db) = db.
Proof.
  unfold serve_one. pose proof (handle_store db req) as Hs.
  by destruct (handle req db).
Qed.

Lemma serve_store db reqs : snd (serve reqs db) = db.
Proof.
  revert db. induction reqs as [|req reqs IH]; intros db; [reflexivity|].
  simpl. pose proof (serve_one_store db req) as Hone.
  destruct (serve_one req db) as [resp s']; simpl in Hone; subst s'.
  specialize (IH db). by destruct (serve reqs db).
Qed.

(** Every request is answered. *)
Lemma serve_length db reqs : length (fst (serve reqs db)) = length reqs.
Proof.
  revert db. induction reqs as [|req reqs IH]; intros db; [reflexivity|].
  simpl. destruct (serve_one req db) as [resp s'].
  specialize (IH s'). destruct (serve reqs s'). simpl in *. by f_equal.
Qed.

(** C8. The store is the list built at startup and nothing writes to it:
    the lookup, the access check and both handlers leave any store as they
    found it, so after any sequence of requests the process still holds the
    startup list; and no two records of that list share a username. *)
Theorem store_is_read_only :
  (∀ db name, snd (with_username mkUserRepository name db) = db)
  ∧ (∀ db credentials, snd (check_auth (access_service credentials) db) = db)
  ∧ (∀ db, snd (index db) = db)
  ∧ (∀ db credentials,
       snd (get_protected_resource (access_service credentials) db) = db)
  ∧ (∀ reqs, snd (serve reqs startup_store) = DBProvider.database)
  ∧ NoDup (username <$> DBProvider.database).
Proof.
  split_and!.
  - apply with_username_store.
  - apply check_auth_store.
  - reflexivity.
  - intros db credentials.
    apply (handle_store db (GET_protected_resource credentials)).
  - intros reqs. apply serve_store.
  - compute_done.
Qed.

(** C10. The startup store accepts exactly the five pairs of
    [accepted_pairs]: for each of them [check_auth] returns the record of
    that pair, and for every other credentials pair it raises
    [UserNotFoundError] or [UserNotAuthenticatedError]. *)
Theorem startup_store_accepts_exactly_five :
  length accepted_pairs = 5%nat
  ∧ NoDup accepted_pairs
  ∧ ∀ u p,
      ((u, p) ∈ accepted_pairs
       ∧ check_auth (access_service (Credentials.mk u p)) startup_store
         = (inr (Some (mkUser u p)), startup_store))
      ∨ (((u, p) ∉ accepted_pairs)
         ∧ (check_auth (access_service (Credentials.mk u p)) startup_store
            = (inl UserNotFoundError, startup_store)
            ∨ check_auth (access_service (Credentials.mk u p)) startup_store
              = (inl UserNotAuthenticatedError, startup_store))).
Proof.
  split_and!; [reflexivity|compute_done|].
  intros u p. destruct (decide ((u, p) ∈ accepted_pairs)) as [Hin|Hout].
  - left. split; [done|]. unfold accepted_pairs in Hin.
    repeat (apply elem_of_cons in Hin as [[= -> ->]|Hin]; [reflexivity|]).
    by apply elem_of_nil in Hin.
  - right. split; [done|]. rewrite check_auth_run; simpl.
    unfold startup_store, DBProvider.database.
    repeat (rewrite head_filter_cons; simpl; case_decide;
            [subst u; case_decide; [|by right];
             subst p; destruct Hout; compute_done|]).
    by left.
Qed.

End StoreLifetime.

(** * Further properties of the code *)

(** ** The lookup over composed and reordered stores *)

Section LookupComposition.
Implicit Types (db : list User) (name : string) (r : User).

(** X1. Looking a username up in the concatenation of two lists gives the
    record found in the front list, and falls back to the back list only
    when the front list has no record of that username. *)
Theorem with_username_app (db1 db2 : Store) name :
  fst (with_username mkUserRepository name (db1 ++ db2))
  = match fst (with_username mkUserRepository name db1) with
    | inr None => fst (with_username mkUserRepository name db2)
    | found => found
    end.
Proof.
  unfold Store in db1, db2.
  rewrite !with_username_run; simpl. rewrite filter_app.
  by destruct (filter _ db1).
Qed.

Lemma head_filter_NoDup db name r :
  NoDup (username <$> db) →
  head (filter (λ u, username u = name) db) = Some r
  ↔ r ∈ db ∧ username r = name.
Proof.
  intros Hnd. rewrite head_filter_first. split.
  - intros (pre & post & -> & Hname & _). split; [|done].
    apply elem_of_app. right. left.
  - intros [Hin <-]. by apply NoDup_first_with_username.
Qed.

(** For lists with pairwise distinct usernames the scan does not depend
    on the order of the records. *)
Lemma head_filter_Permutation db1 db2 name :
  NoDup (username <$> db1) → db1 ≡ₚ db2 →
  head (filter (λ u, username u = name) db1)
  = head (filter (λ u, username u = name) db2).
Proof.
  intros Hnd1 Hperm.
  assert (NoDup (username <$> db2)) as Hnd2 by by rewrite <-Hperm.
  destruct (head (filter _ db1)) as [r|] eqn:H1.
  - apply (head_filter_NoDup _ _ _ Hnd1) in H1 as [Hin Hname].
    symmetry. apply (head_filter_NoDup _ _ _ Hnd2).
    by rewrite <-Hperm.
  - destruct (head (filter _ db2)) as [r|] eqn:H2; [|done].
    apply (head_filter_NoDup _ _ _ Hnd2) in H2 as [Hin Hname].
    rewrite <-Hperm in Hin.
    assert (head (filter (λ u, username u = name) db1) = Some r) as H1'
      by by apply head_filter_NoDup.
    congruence.
Qed.

(** X2. In a store whose usernames are pairwise distinct, the lookup
    returns a record exactly when that record is in the store under the
    username asked for, wherever in the list it sits. *)
Theorem with_username_distinct_usernames (db : Store) name r :
  NoDup (username <$> (db : list User)) →
  fst (with_username mkUserRepository name db) = inr (Some r)
  ↔ r ∈ db ∧ username r = name.
Proof.
  intros Hnd. rewrite with_username_run; simpl.
  rewrite <-(head_filter_NoDup _ _ _ Hnd). split; congruence.
Qed.

Lemma with_username_distinct_usernames_witness :
  fst (with_username mkUserRepository "user5" startup_store)
  = inr (Some (mkUser "user5" "pass5"))
  ↔ mkUser "user5" "pass5" ∈ startup_store
    ∧ username (mkUser "user5" "pass5") = "user5".
Proof.
  apply (with_username_distinct_usernames
           startup_store "user5" (mkUser "user5" "pass5")).
  compute_done.
Defined.

End LookupComposition.

(** ** The access check, outcome by outcome *)

Section AccessOutcomes.
Implicit Types (db : list User) (r : User).
Implicit Types (credentials : HTTPBasicCredentialsProtocol).

Lemma check_auth_fst db credentials :
  fst (check_auth (access_service credentials) db)
  = match head (filter (λ u, username u = Credentials.username credentials)
                       db) with
    | None => inl UserNotFoundError
    | Some u =>
        if decide (password u = Credentials.password credentials)
        then inr (Some u)
        else inl UserNotAuthenticatedError
    end.
Proof.
  rewrite check_auth_run.
  destruct (head _) as [u|]; [case_decide|]; reflexivity.
Qed.

(** X3. The access check returns a user exactly when that user is the
    first record of the store with the credentials' username and its
    password equals the credentials' password: no other record, and no
    value that is not in the store, is ever returned. *)
Theorem check_auth_success_iff db credentials r :
  fst (check_auth (access_service credentials) db) = inr (Some r)
  ↔ first_with_username db (Credentials.username credentials) r
    ∧ password r = Credentials.password credentials.
Proof.
  rewrite check_auth_fst, <-head_filter_first.
  destruct (head _) as [u|]; [case_decide|]; split;
    try (intros [= <-]; done); try discriminate;
    intros [[= ->] ?]; done.
Qed.

(** X4. The two failures tell the two causes apart: [UserNotFoundError]
    is raised exactly when no record has the username, and
    [UserNotAuthenticatedError] exactly when the first record with the
    username has another password. *)
Theorem check_auth_failure_iff db credentials :
  (fst (check_auth (access_service credentials) db) = inl UserNotFoundError
   ↔ username_absent db (Credentials.username credentials))
  ∧ (fst (check_auth (access_service credentials) db)
     = inl UserNotAuthenticatedError
     ↔ ∃ r, first_with_username db (Credentials.username credentials) r
            ∧ password r ≠ Credentials.password credentials).
Proof.
  rewrite check_auth_fst, <-head_filter_absent.
  setoid_rewrite <-head_filter_first.
  destruct (head _) as [u|]; [case_decide|]; split_and!; split;
    try done; try discriminate.
  - intros (r & [= ->] & Hne). done.
  - intros _. by exists u.
  - intros (r & [=] & _).
Qed.

(** X5. The outcome over a concatenated store: what the check decides on
    the front list stands, and the back list is consulted only when the
    front list does not know the username.  In particular, appending
    records to a store changes the outcome for no username the store
    already has. *)
Theorem check_auth_app db1 db2 credentials :
  fst (check_auth (access_service credentials) (db1 ++ db2))
  = match fst (check_auth (access_service credentials) db1) with
    | inl UserNotFoundError =>
        fst (check_auth (access_service credentials) db2)
    | outcome => outcome
    end.
Proof.
  rewrite !check_auth_fst, filter_app.
  destruct (filter _ db1) as [|u l]; simpl; [done|].
  by case_decide.
Qed.

(** X6. For stores with pairwise distinct usernames the order of the
    records is irrelevant to the access check. *)
Theorem check_auth_order_irrelevant db1 db2 credentials :
  NoDup (username <$> db1) → db1 ≡ₚ db2 →
  fst (check_auth (access_service credentials) db1)
  = fst (check_auth (access_service credentials) db2).
Proof.
  intros Hnd Hperm. rewrite !check_auth_fst.
  by rewrite (head_filter_Permutation db1 db2 _ Hnd Hperm).
Qed.

Lemma check_auth_order_irrelevant_witness :
  fst (check_auth (access_service (Credentials.mk "user4" "pass4"))
                  startup_store)
  = fst (check_auth (access_service (Credentials.mk "user4" "pass4"))
                    (reverse startup_store)).
Proof.
  apply (check_auth_order_irrelevant startup_store (reverse startup_store)).
  - compute_done.
  - symmetry. apply reverse_Permutation.
Defined.

(** With a username held twice the order does matter. *)
Example check_auth_order_matters :
  fst (check_auth (access_service (Credentials.mk "a" "2"))
                  [mkUser "a" "1"; mkUser "a" "2"])
  ≠ fst (check_auth (access_service (Credentials.mk "a" "2"))
                    [mkUser "a" "2"; mkUser "a" "1"]).
Proof. vm_compute. discriminate. Qed.

(** X7. On an empty store every credentials pair is refused with
    [UserNotFoundError], and the protected route answers 401. *)
Theorem empty_store_refuses_everyone credentials :
  check_auth (access_service credentials) [] = (inl UserNotFoundError, [])
  ∧ serve_one (GET_protected_resource credentials) []
    = (Some response_401, []).
Proof.
  assert (check_auth (access_service credentials) []
          = (inl UserNotFoundError, [])) as Hcheck
    by by rewrite check_auth_run.
  split; [done|].
  apply (serve_one_protected_failure [] credentials UserNotFoundError);
    [by rewrite Hcheck|by left].
Qed.

End AccessOutcomes.

(** ** The protected route, end to end *)

Section RouteOutcomes.
Implicit Types (db : list User) (r : User).
Implicit Types (credentials : HTTPBasicCredentialsProtocol).

(** X8. Whatever the store and the credentials, a request to the
    protected route is answered, and with one of two responses only: the
    200 response that carries the secret, or the 401 response.  No
    exception of the access check escapes the handler. *)
Theorem protected_route_always_answers db credentials :
  serve_one (GET_protected_resource credentials) db = (Some response_200, db)
  ∨ serve_one (GET_protected_resource credentials) db
    = (Some response_401, db).
Proof.
  unfold serve_one, handle.
  rewrite get_protected_resource_run, check_auth_run.
  destruct (head _) as [u|]; [case_decide|]; simpl; auto.
Qed.

(** X9. The protected route answers 200 exactly when the first record of
    the store with the credentials' username has the credentials'
    password. *)
Theorem protected_route_200_iff db credentials :
  fst (serve_one (GET_protected_resource credentials) db) = Some response_200
  ↔ ∃ r, first_with_username db (Credentials.username credentials) r
         ∧ password r = Credentials.password credentials.
Proof.
  unfold serve_one, handle.
  rewrite get_protected_resource_run, check_auth_run.
  setoid_rewrite <-head_filter_first.
  destruct (head _) as [u|]; [case_decide|]; simpl; split;
    try discriminate.
  - intros _. by exists u.
  - done.
  - intros (r & [= ->] & ?). done.
  - intros (r & [=] & _).
Qed.

(** X10. Over any repository that implements the protocol, the handler
    returns only the fixed string, and only after an access check that
    returned a user whose password equals the password of the
    credentials. *)
Theorem secret_requires_matching_password {R} `{UserRepositoryProtocol R}
    (svc : AccessService R) (s s' : Store) (v : Returned) :
  get_protected_resource svc s = (inr v, s') →
  v = Str "You got my secret, welcome!"
  ∧ ∃ user, check_auth svc s = (inr (Some user), s')
            ∧ password user = Credentials.password (_credentials svc).
Proof.
  rewrite get_protected_resource_run.
  destruct (check_auth svc s) as [[exc|result] s1] eqn:Hcheck.
  - by destruct (is_access_error exc).
  - intros [= <- <-]. split; [done|].
    destruct (check_auth_any_repository svc s s1 result Hcheck)
      as (user & -> & Hpw).
    by exists user.
Qed.

Lemma secret_requires_matching_password_witness :
  Str "You got my secret, welcome!" = Str "You got my secret, welcome!"
  ∧ ∃ user,
      check_auth (access_service (Credentials.mk "user5" "pass5")) startup_store
      = (inr (Some user), startup_store)
      ∧ password user = "pass5".
Proof.
  apply (secret_requires_matching_password
           (access_service (Credentials.mk "user5" "pass5")) startup_store).
  reflexivity.
Defined.

(** X11. Whatever the handler raises is an [HTTPException] with status
    401, the fixed detail and the [WWW-Authenticate] header, and its cause
    is the very error the access check raised, one of the two access
    errors. *)
Theorem handler_raises_only_401 db credentials exc :
  fst (get_protected_resource (access_service credentials) db) = inl exc →
  ∃ cause,
    exc = HTTPException 401 "User not authenticated"
                        {[ "WWW-Authenticate" := "Basic" ]} cause
    ∧ fst (check_auth (access_service credentials) db) = inl cause
    ∧ (cause = UserNotFoundError ∨ cause = UserNotAuthenticatedError).
Proof.
  rewrite get_protected_resource_run, check_auth_run.
  destruct (head _) as [u|]; [case_decide|]; simpl; [discriminate|..];
    intros [= <-]; eexists; eauto.
Qed.

Lemma handler_raises_only_401_witness :
  ∃ cause,
    HTTPException 401 "User not authenticated"
                  {[ "WWW-Authenticate" := "Basic" ]} UserNotFoundError
    = HTTPException 401 "User not authenticated"
                    {[ "WWW-Authenticate" := "Basic" ]} cause
    ∧ fst (check_auth (access_service (Credentials.mk "user0" "pass1"))
                      startup_store) = inl cause
    ∧ (cause = UserNotFoundError ∨ cause = UserNotAuthenticatedError).
Proof.
  apply (handler_raises_only_401
           startup_store (Credentials.mk "user0" "pass1")).
  reflexivity.
Defined.

(** X12. Requests do not influence one another: in any sequence of
    requests each one gets the response it would get alone on the same
    store, and the store comes out as it went in. *)
Theorem serve_requests_independent db (reqs : list Request) :
  serve reqs db = ((λ req, fst (serve_one req db)) <$> reqs, db).
Proof.
  induction reqs as [|req reqs IH]; [reflexivity|].
  simpl. pose proof (serve_one_store db req) as Hone.
  destruct (serve_one req db) as [resp s']; simpl in Hone; subst s'.
  by rewrite IH.
Qed.

End RouteOutcomes.

(** ** Who may write to the store *)

Section Writes.

(** X13. Over any repository that implements the protocol, neither the
    access check nor the handler writes to the store themselves: the store
    after the handler is the store after the access check, which is the
    store the repository's lookup left. *)
Theorem only_the_repository_touches_the_store {R} `{UserRepositoryProtocol R}
    (svc : AccessService R) (s : Store) :
  snd (check_auth svc s)
  = snd (with_username (_user_repository svc)
                       (Credentials.username (_credentials svc)) s)
  ∧ snd (get_protected_resource svc s) = snd (check_auth svc s).
Proof.
  split.
  - unfold check_auth, mbind, Eff_bind.
    destruct (with_username _ _ s) as [[exc|[u|]] s1]; simpl; [done| |done].
    by case_decide.
  - rewrite get_protected_resource_run.
    destruct (check_auth svc s) as [[exc|result] s1]; simpl; [|done].
    by destruct (is_access_error exc).
Qed.

End Writes.
